(** * The algebra practice module: answer checking and session state

    A shallow embedding of [client/src/components/algebra/AlgebraModule.tsx]:
    the session state held in the component's five [useState] cells, the
    handlers [handleAnswerChange], [checkAnswer] and [nextProblem], and the
    [disabled] attributes of the answer input and of the Check button.

    The handlers rest on two things that the language provides: numbers,
    which are IEEE doubles, and the built-in [parseInt].  Both are embedded
    first, following ECMA-262. *)

From Stdlib Require Import ZArith NArith List Bool Lia String Ascii.
From Stdlib Require Import DecimalPos DecimalZ.
Import ListNotations.

Local Open Scope Z_scope.

(** ** Numbers *)

Module Number.

(** The values a [number] takes in this component: NaN, the two
    infinities, and the doubles whose value is an integer.  The two zeros
    are one value here; [===] and [isNaN], the only operations the
    component applies to a number, do not tell them apart. *)
Inductive number : Type :=
| NaN
| Infinity (negative : bool)
| Int (z : Z).

(** First power of two that no finite double reaches. *)
Definition overflow_threshold : Z := 2 ^ 1024.

(** The conversion of a mathematical integer to a Number value (the
    double-struck F of ECMA-262): the nearest double, ties to the even
    significand; a double has 53 significant bits. *)
Definition toF (z : Z) : number :=
  let a := Z.abs z in
  let e := Z.log2 a - 52 in
  if e <=? 0 then Int z
  else
    let q := a / 2 ^ e in
    let r := a mod 2 ^ e in
    let half := 2 ^ (e - 1) in
    let q' := if (half <? r) || ((r =? half) && Z.odd q) then q + 1 else q in
    let v := q' * 2 ^ e in
    if overflow_threshold <=? v then Infinity (z <? 0) else Int (Z.sgn z * v).

(** An integer that a double holds exactly: below the overflow threshold,
    and nothing but zeros under its 53 leading bits. *)
Definition is_double (z : Z) : bool :=
  let a := Z.abs z in
  (a <? overflow_threshold) && (a mod 2 ^ Z.max 0 (Z.log2 a - 52) =? 0).

(** [Number.isSafeInteger] *)
Definition isSafeInteger (z : Z) : bool := Z.abs z <? 2 ^ 53.

(** The global [isNaN]. *)
Definition isNaN (x : number) : bool :=
  match x with NaN => true | _ => false end.

(** [x === y] on two numbers. *)
Definition strict_equals (x y : number) : bool :=
  match x, y with
  | Int a, Int b => a =? b
  | Infinity s, Infinity t => Bool.eqb s t
  | _, _ => false
  end.

End Number.
Import Number.

(** ** Strings *)

(** A string value is a sequence of UTF-16 code units. *)
Definition code_unit := N.
Definition jsstring := list code_unit.

(** The code units of an ASCII literal. *)
Fixpoint utf16 (s : string) : jsstring :=
  match s with
  | EmptyString => []
  | String c r => N_of_ascii c :: utf16 r
  end.

Module ParseInt.

Local Open Scope N_scope.

(** WhiteSpace and LineTerminator code points (ECMA-262, 12.2 and 12.3):
    TAB, LF, VT, FF, CR, SP, NBSP, the Zs category, LS, PS and ZWNBSP. *)
Definition isStrWhiteSpaceChar (c : code_unit) : bool :=
  ((9 <=? c) && (c <=? 13))
  || (c =? 32) || (c =? 160) || (c =? 5760)
  || ((8192 <=? c) && (c <=? 8202))
  || (c =? 8232) || (c =? 8233) || (c =? 8239) || (c =? 8287)
  || (c =? 12288) || (c =? 65279).

(** [TrimString(inputString, start)] *)
Fixpoint trimStart (s : jsstring) : jsstring :=
  match s with
  | c :: r => if isStrWhiteSpaceChar c then trimStart r else s
  | [] => []
  end.

(** The value of a digit or letter: 0-9, then a-z and A-Z for 10-35. *)
Definition digitValue (c : code_unit) : option Z :=
  if (48 <=? c) && (c <=? 57) then Some (Z.of_N (c - 48))
  else if (97 <=? c) && (c <=? 122) then Some (Z.of_N (c - 87))
  else if (65 <=? c) && (c <=? 90) then Some (Z.of_N (c - 55))
  else None.

Definition isDecimalDigit (c : code_unit) : bool :=
  (48 <=? c) && (c <=? 57).

Definition radixDigit (R : Z) (c : code_unit) : option Z :=
  match digitValue c with
  | Some v => if (v <? R)%Z then Some v else None
  | None => None
  end.

(** The digits of the longest prefix of [s] made of radix-[R] digits. *)
Fixpoint takeDigits (R : Z) (s : jsstring) : list Z :=
  match s with
  | c :: r =>
      match radixDigit R c with
      | Some v => v :: takeDigits R r
      | None => []
      end
  | [] => []
  end.

(** The integer that a digit sequence denotes in radix [R]. *)
Definition mathInt (R : Z) (ds : list Z) : Z :=
  fold_left (fun acc d => acc * R + d)%Z ds 0%Z.

Definition ToInt32 (x : Z) : Z :=
  ((x + 2 ^ 31) mod 2 ^ 32 - 2 ^ 31)%Z.

Definition stripSign (s : jsstring) : Z * jsstring :=
  match s with
  | 45 :: r => ((-1)%Z, r)
  | 43 :: r => (1%Z, r)
  | _ => (1%Z, s)
  end.

Definition stripHexPrefix (s : jsstring) : option jsstring :=
  match s with
  | 48 :: 120 :: r => Some r
  | 48 :: 88 :: r => Some r
  | _ => None
  end.

(** [parseInt(string, radix)], ECMA-262 19.2.5, on a string and an
    integral radix.  Where the standard lets an implementation drop the
    digits after the twentieth, all digits are kept. *)
Definition parseInt (s : jsstring) (radix : Z) : number :=
  let (sign, S) := stripSign (trimStart s) in
  let R := ToInt32 radix in
  if ((R =? 0) || ((2 <=? R) && (R <=? 36)))%Z then
    let (R, S) :=
      if ((R =? 0) || (R =? 16))%Z then
        match stripHexPrefix S with
        | Some S' => (16%Z, S')
        | None => ((if (R =? 0)%Z then 10 else R)%Z, S)
        end
      else (R, S) in
    match takeDigits R S with
    | [] => NaN
    | ds => toF (sign * mathInt R ds)
    end
  else NaN.

End ParseInt.
Import ParseInt.

(** ** Decimal rendering *)

(** The code units of a digit sequence. *)
Fixpoint units (u : Decimal.uint) : jsstring :=
  match u with
  | Decimal.Nil => []
  | Decimal.D0 r => 48%N :: units r
  | Decimal.D1 r => 49%N :: units r
  | Decimal.D2 r => 50%N :: units r
  | Decimal.D3 r => 51%N :: units r
  | Decimal.D4 r => 52%N :: units r
  | Decimal.D5 r => 53%N :: units r
  | Decimal.D6 r => 54%N :: units r
  | Decimal.D7 r => 55%N :: units r
  | Decimal.D8 r => 56%N :: units r
  | Decimal.D9 r => 57%N :: units r
  end.

(** The decimal rendering of an integer: its digits, most significant
    first, after a minus sign when it is negative.  [String(x)] gives this
    for every safe integer. *)
Definition str (z : Z) : jsstring :=
  match Z.to_int z with
  | Decimal.Pos u => units u
  | Decimal.Neg u => 45%N :: units u
  end.

(** ** Problems, toasts and the session state *)

(** Modelled from the spec: the type of a problem is declared in
    [lib/algebraProblems], of which the component shows the import only.
    The fields are the ones the component reads.  The spec's data model makes
    [answer] an integer; the component holds it in a [number], hence the
    second field. *)
Record Problem : Type := {
  answer : Z;
  answer_number : is_double answer = true;
  hint : string;
  detailedHint : string
}.

(** The argument of a [toast] call. *)
Record Toast : Type := {
  title : string;
  description : string;
  variant : string
}.

(** The five [useState] cells of the component. *)
Record State : Type := {
  currentProblem : Problem;
  userAnswer : jsstring;
  showFeedback : bool;
  isCorrect : bool;
  showHints : bool
}.

Definition setCurrentProblem (p : Problem) (s : State) : State :=
  {| currentProblem := p; userAnswer := userAnswer s;
     showFeedback := showFeedback s; isCorrect := isCorrect s;
     showHints := showHints s |}.

Definition setUserAnswer (v : jsstring) (s : State) : State :=
  {| currentProblem := currentProblem s; userAnswer := v;
     showFeedback := showFeedback s; isCorrect := isCorrect s;
     showHints := showHints s |}.

Definition setShowFeedback (b : bool) (s : State) : State :=
  {| currentProblem := currentProblem s; userAnswer := userAnswer s;
     showFeedback := b; isCorrect := isCorrect s;
     showHints := showHints s |}.

Definition setIsCorrect (b : bool) (s : State) : State :=
  {| currentProblem := currentProblem s; userAnswer := userAnswer s;
     showFeedback := showFeedback s; isCorrect := b;
     showHints := showHints s |}.

Definition setShowHints (b : bool) (s : State) : State :=
  {| currentProblem := currentProblem s; userAnswer := userAnswer s;
     showFeedback := showFeedback s; isCorrect := isCorrect s;
     showHints := b |}.

(** ** The handlers *)

Local Open Scope string_scope.

(** The four toasts of [checkAnswer].  The first two are the corrective
    prompts that the spec calls [MissingAnswer] and [NotANumber]. *)
Definition missingAnswerToast : Toast :=
  {| title := "Don't forget to answer!";
     description := "Type a number in the answer box";
     variant := "destructive" |}.

Definition notANumberToast : Toast :=
  {| title := "That's not a number";
     description := "Please type a number in the answer box";
     variant := "destructive" |}.

Definition greatJobToast : Toast :=
  {| title := "Great job!";
     description := "Your answer is correct!";
     variant := "default" |}.

Definition notQuiteToast : Toast :=
  {| title := "Not quite right";
     description := "Try again or check the hint";
     variant := "destructive" |}.

Local Close Scope string_scope.

Definition isEmpty (v : jsstring) : bool :=
  match v with [] => true | _ :: _ => false end.

(** [handleAnswerChange], applied to the [value] of the changed input. *)
Definition handleAnswerChange (value : jsstring) (s : State) : State :=
  setUserAnswer value s.

(** [checkAnswer]: the state it leaves and the toast it shows. *)
Definition checkAnswer (s : State) : State * Toast :=
  if isEmpty (userAnswer s) then (s, missingAnswerToast)
  else
    let parsedAnswer := parseInt (userAnswer s) 10 in
    if isNaN parsedAnswer then (s, notANumberToast)
    else
      let correct := strict_equals parsedAnswer (Int (answer (currentProblem s))) in
      let s' := setShowFeedback true (setIsCorrect correct s) in
      if correct then (s', greatJobToast) else (s', notQuiteToast).

(** The [disabled] attribute of the answer input. *)
Definition inputDisabled (s : State) : bool := showFeedback s && isCorrect s.

(** The [disabled] attribute of the Check button. *)
Definition checkDisabled (s : State) : bool := showFeedback s && isCorrect s.

(** The handler of the hint toggle. *)
Definition toggleHints (s : State) : State :=
  setShowHints (negb (showHints s)) s.

(** What the user can do to the rendered component.  [Change] carries the
    [value] of the input after the change; that the browser lets only some
    strings through a number input narrows the values that occur. *)
Inductive Event : Type :=
| Change (value : jsstring)
| ClickCheck
| ClickHints
| NextChallenge.

Section Session.

(** [generateAlgebraProblem] is imported from [lib/algebraProblems] and is
    called with the level alone.  Whatever else its result depends on is
    ambient at the call; here it is a world that the call reads and
    leaves changed. *)
Variable World : Type.
Variable generateAlgebraProblem : Z -> World -> Problem * World.

(** The state on mount. *)
Definition mount (w : World) : State * World :=
  let (p, w') := generateAlgebraProblem 1 w in
  ({| currentProblem := p; userAnswer := []; showFeedback := false;
      isCorrect := false; showHints := false |}, w').

(** [nextProblem] *)
Definition nextProblem (s : State) (w : World) : State * World :=
  let (p, w') := generateAlgebraProblem 1 w in
  (setShowHints false
     (setShowFeedback false
        (setUserAnswer [] (setCurrentProblem p s))), w').

(** One user event, met by the world [w].  A disabled control delivers no
    event, and the feedback panel, which carries [onNextChallenge], is
    rendered only while [showFeedback] holds.  What becomes of the world
    between two events, rendering included, is left open: each event
    comes with the world it meets. *)
Definition step (e : Event) (w : World) (s : State) : State * option Toast :=
  match e with
  | Change v =>
      if inputDisabled s then (s, None)
      else (handleAnswerChange v s, None)
  | ClickCheck =>
      if checkDisabled s then (s, None)
      else let (s', t) := checkAnswer s in (s', Some t)
  | ClickHints => (toggleHints s, None)
  | NextChallenge =>
      if showFeedback s then (fst (nextProblem s w), None)
      else (s, None)
  end.

(** Runs of events, oldest first. *)
Fixpoint run (es : list (Event * World)) (s : State) : State :=
  match es with
  | [] => s
  | (e, w) :: es' => run es' (fst (step e w s))
  end.

End Session.

Arguments mount {World} generateAlgebraProblem w.
Arguments nextProblem {World} generateAlgebraProblem s w.
Arguments step {World} generateAlgebraProblem e w s.
Arguments run {World} generateAlgebraProblem es s.

(** What a call of [checkAnswer] on [s] can come to, one constructor for
    each path through its body. *)
Inductive checks (s : State) : State -> Toast -> Prop :=
| check_missing :
    userAnswer s = [] ->
    checks s s missingAnswerToast
| check_not_a_number :
    userAnswer s <> [] ->
    parseInt (userAnswer s) 10 = NaN ->
    checks s s notANumberToast
| check_correct :
    userAnswer s <> [] ->
    parseInt (userAnswer s) 10 = Int (answer (currentProblem s)) ->
    checks s (setShowFeedback true (setIsCorrect true s)) greatJobToast
| check_incorrect :
    userAnswer s <> [] ->
    parseInt (userAnswer s) 10 <> NaN ->
    parseInt (userAnswer s) 10 <> Int (answer (currentProblem s)) ->
    checks s (setShowFeedback true (setIsCorrect false s)) notQuiteToast.

(** ** Sample sessions *)

Module Samples.

Local Open Scope string_scope.

Definition seven : Problem :=
  {| answer := 7; answer_number := eq_refl;
     hint := "What number added to 3 makes 10?";
     detailedHint := "Count up from 3 until you reach 10." |}.

Definition typed (p : Problem) (v : jsstring) : State :=
  {| currentProblem := p; userAnswer := v; showFeedback := false;
     isCorrect := false; showHints := false |}.

Definition solved (p : Problem) (v : jsstring) : State :=
  {| currentProblem := p; userAnswer := v; showFeedback := true;
     isCorrect := true; showHints := false |}.

(** A generator that always hands out [seven]. *)
Definition always_seven (level : Z) (w : unit) : Problem * unit := (seven, w).

End Samples.

(** ** What the component renders *)

(** The right column: the feedback panel with its props (its
    [onNextChallenge] is [nextProblem]), or the static progress panel. *)
Inductive Panel : Type :=
| AlgebraFeedback (isCorrect : bool) (problem : Problem) (userAnswer : number)
| Journey.

(** The parts of the rendered tree that depend on the state. *)
Record View : Type := {
  problemProp : Problem;
  inputValue : jsstring;
  inputIsDisabled : bool;
  checkIsDisabled : bool;
  hintText : string;
  hintsLabel : string;
  detailedHintText : option string;
  rightColumn : Panel
}.

Definition render (s : State) : View :=
  {| problemProp := currentProblem s;
     inputValue := userAnswer s;
     inputIsDisabled := showFeedback s && isCorrect s;
     checkIsDisabled := showFeedback s && isCorrect s;
     hintText := hint (currentProblem s);
     hintsLabel := if showHints s then "Hide hints"%string
                   else "Show more hints"%string;
     detailedHintText := if showHints s
                         then Some (detailedHint (currentProblem s))
                         else None;
     rightColumn := if showFeedback s
                    then AlgebraFeedback (isCorrect s) (currentProblem s)
                           (parseInt (userAnswer s) 10)
                    else Journey |}.

Section Reachability.

Variable World : Type.
Variable generateAlgebraProblem : Z -> World -> Problem * World.

(** The states that a session goes through: the state on mount, and every
    state that an event leads to from one of them. *)
Inductive reachable : State -> Prop :=
| reachable_mount (w : World) :
    reachable (fst (mount generateAlgebraProblem w))
| reachable_step (e : Event) (w : World) (s : State) :
    reachable s ->
    reachable (fst (step generateAlgebraProblem e w s)).

End Reachability.

Arguments reachable {World} generateAlgebraProblem s.

(** ** Shapes of input *)

(** A string of white space and line terminators. *)
Definition allWhiteSpace (s : jsstring) : Prop :=
  Forall (fun c => isStrWhiteSpaceChar c = true) s.

(** A string that does not go on with a decimal digit. *)
Definition noDigitAhead (s : jsstring) : Prop :=
  match s with
  | [] => True
  | c :: _ => isDecimalDigit c = false
  end.

(** The sign that goes with an integer in an input. *)
Definition signFor (z : Z) (sign : jsstring) : Prop :=
  if z <? 0 then sign = [45%N] else sign = [] \/ sign = [43%N].

(** While the controls are disabled the input reads as the answer. *)
Definition lock_justified (s : State) : Prop :=
  showFeedback s = true -> isCorrect s = true ->
  parseInt (userAnswer s) 10 = Int (answer (currentProblem s)).

(** A session that shows the feedback of an incorrect check. *)
Definition missed (p : Problem) (v : jsstring) : State :=
  {| currentProblem := p; userAnswer := v; showFeedback := true;
     isCorrect := false; showHints := false |}.

(** * Properties *)

(** ** Rounding to a double *)

Lemma toF_is_double (z : Z) : is_double z = true -> toF z = Int z.
Proof.
  unfold is_double, toF.
  intros H. apply andb_prop in H. destruct H as [Hlt Hmod].
  apply Z.ltb_lt in Hlt. apply Z.eqb_eq in Hmod.
  destruct (Z.leb_spec (Z.log2 (Z.abs z) - 52) 0) as [He | He]; [reflexivity|].
  rewrite Z.max_r in Hmod by lia.
  rewrite Hmod.
  assert (Hh : 0 < 2 ^ (Z.log2 (Z.abs z) - 52 - 1)) by (apply Z.pow_pos_nonneg; lia).
  destruct (Z.ltb_spec (2 ^ (Z.log2 (Z.abs z) - 52 - 1)) 0) as [Hc | _]; [lia|].
  destruct (Z.eqb_spec 0 (2 ^ (Z.log2 (Z.abs z) - 52 - 1))) as [Hc | _]; [lia|].
  cbn [orb andb].
  assert (Hv : Z.abs z / 2 ^ (Z.log2 (Z.abs z) - 52) * 2 ^ (Z.log2 (Z.abs z) - 52)
               = Z.abs z).
  { pose proof (Z.div_mod (Z.abs z) (2 ^ (Z.log2 (Z.abs z) - 52))) as D.
    assert (0 < 2 ^ (Z.log2 (Z.abs z) - 52)) by (apply Z.pow_pos_nonneg; lia).
    lia. }
  rewrite Hv.
  destruct (Z.leb_spec overflow_threshold (Z.abs z)) as [Hc | _]; [lia|].
  f_equal. destruct z; simpl; lia.
Qed.

Lemma toF_not_NaN (z : Z) : toF z <> NaN.
Proof.
  unfold toF.
  destruct (Z.log2 (Z.abs z) - 52 <=? 0); [discriminate|].
  match goal with |- (if ?c then _ else _) <> _ => destruct c end; discriminate.
Qed.

Lemma isSafeInteger_is_double (z : Z) :
  isSafeInteger z = true -> is_double z = true.
Proof.
  unfold isSafeInteger, is_double. intros H. apply Z.ltb_lt in H.
  assert (Hl : Z.log2 (Z.abs z) < 53).
  { destruct (Z.eq_dec (Z.abs z) 0) as [E | E]; [rewrite E; simpl; lia|].
    apply Z.log2_lt_pow2; lia. }
  rewrite Z.max_l by lia. rewrite Z.pow_0_r, Z.mod_1_r.
  rewrite andb_true_r. apply Z.ltb_lt.
  unfold overflow_threshold.
  assert (2 ^ 53 < 2 ^ 1024) by (apply Z.pow_lt_mono_r; lia). lia.
Qed.

(** The successor of a safe integer is a double too: it is safe, or it is
    2^53. *)
Lemma isSafeInteger_succ_is_double (z : Z) :
  isSafeInteger z = true -> is_double (z + 1) = true.
Proof.
  intros H.
  destruct (isSafeInteger (z + 1)) eqn:E; [now apply isSafeInteger_is_double|].
  unfold isSafeInteger in H, E.
  apply Z.ltb_lt in H. apply Z.ltb_ge in E.
  assert (Hz : z + 1 = 2 ^ 53) by lia.
  rewrite Hz. reflexivity.
Qed.

Lemma strict_equals_Int (x : number) (a : Z) :
  strict_equals x (Int a) = true <-> x = Int a.
Proof.
  destruct x as [| b | z]; simpl; split; intros H; try discriminate H.
  - apply Z.eqb_eq in H. now subst.
  - injection H as ->. apply Z.eqb_refl.
Qed.

Lemma isNaN_true (x : number) : isNaN x = true <-> x = NaN.
Proof. destruct x; simpl; split; intros H; try discriminate H; reflexivity. Qed.

(** ** [parseInt] in radix ten *)

Lemma radixDigit_10 (c : code_unit) :
  radixDigit 10 c = if isDecimalDigit c then Some (Z.of_N (c - 48)) else None.
Proof.
  unfold radixDigit, digitValue, isDecimalDigit.
  destruct (N.leb_spec 48 c), (N.leb_spec c 57); cbn [andb];
    [ destruct (Z.ltb_spec (Z.of_N (c - 48)) 10); [reflexivity | lia] | | | ];
    destruct (N.leb_spec 97 c), (N.leb_spec c 122); cbn [andb]; try lia;
    try (destruct (Z.ltb_spec (Z.of_N (c - 87)) 10); [lia | reflexivity]);
    destruct (N.leb_spec 65 c), (N.leb_spec c 90); cbn [andb]; try lia;
    try (destruct (Z.ltb_spec (Z.of_N (c - 55)) 10); [lia | reflexivity]);
    reflexivity.
Qed.

(** With radix ten there is no prefix to strip: a sign, then digits. *)
Lemma parseInt_10 (s : jsstring) :
  parseInt s 10 =
  match takeDigits 10 (snd (stripSign (trimStart s))) with
  | [] => NaN
  | ds => toF (fst (stripSign (trimStart s)) * mathInt 10 ds)
  end.
Proof.
  unfold parseInt. destruct (stripSign (trimStart s)) as [sign S].
  reflexivity.
Qed.

(** [parseInt] gives NaN exactly when, white space and one sign skipped,
    the string does not go on with a decimal digit. *)
Lemma parseInt_10_NaN (s : jsstring) :
  parseInt s 10 = NaN <->
  match snd (stripSign (trimStart s)) with
  | [] => True
  | c :: _ => isDecimalDigit c = false
  end.
Proof.
  rewrite parseInt_10.
  destruct (snd (stripSign (trimStart s))) as [| c r]; cbn [takeDigits].
  - tauto.
  - rewrite radixDigit_10. destruct (isDecimalDigit c).
    + split; [intros H; now apply toF_not_NaN in H | discriminate].
    + tauto.
Qed.

(** A numeric prefix is enough for [parseInt]; what follows it is dropped. *)
Example parseInt_prefix : parseInt (utf16 "12abc") 10 = Int 12.
Proof. reflexivity. Qed.

Example parseInt_fraction : parseInt (utf16 "3.7") 10 = Int 3.
Proof. reflexivity. Qed.

Example parseInt_exponent : parseInt (utf16 "1e3") 10 = Int 1.
Proof. reflexivity. Qed.

Example parseInt_signed : parseInt (utf16 "  -12") 10 = Int (-12).
Proof. reflexivity. Qed.

Example parseInt_sign_alone : parseInt (utf16 "-") 10 = NaN.
Proof. reflexivity. Qed.

Example parseInt_rounds : parseInt (utf16 "9007199254740995") 10 = Int 9007199254740996.
Proof. reflexivity. Qed.

(** ** Reading back a decimal rendering *)

(** Evaluates the digit test on the literal code unit in the goal. *)
Ltac eval_radixDigit :=
  match goal with
  | |- context [radixDigit 10 ?c] =>
      let v := eval vm_compute in (radixDigit 10 c) in
      change (radixDigit 10 c) with v
  end.

Ltac head_digit :=
  cbn [units]; unfold takeDigits; fold takeDigits; eval_radixDigit.

Lemma units_fold_acc (u : Decimal.uint) : forall p : positive,
  fold_left (fun acc d => acc * 10 + d) (takeDigits 10 (units u)) (Z.pos p)
  = Z.pos (Pos.of_uint_acc u p).
Proof.
  induction u; intros p; [reflexivity | ..];
    head_digit; cbn [fold_left Pos.of_uint_acc]; rewrite <- IHu; f_equal; lia.
Qed.

Lemma units_mathInt (u : Decimal.uint) :
  mathInt 10 (takeDigits 10 (units u)) = Z.of_N (Pos.of_uint u).
Proof.
  unfold mathInt.
  induction u; [reflexivity | ..];
    head_digit; cbn [fold_left Pos.of_uint]; [exact IHu | ..];
    apply units_fold_acc.
Qed.

Lemma units_takeDigits_nil (u : Decimal.uint) :
  takeDigits 10 (units u) = [] -> u = Decimal.Nil.
Proof. destruct u; [reflexivity | ..]; head_digit; discriminate. Qed.

(** A digit sequence begins with neither white space nor a sign. *)
Lemma units_stripSign_trimStart (u : Decimal.uint) :
  stripSign (trimStart (units u)) = (1, units u).
Proof. destruct u; reflexivity. Qed.

Lemma parseInt_units (u : Decimal.uint) :
  u <> Decimal.Nil -> parseInt (units u) 10 = toF (Z.of_N (Pos.of_uint u)).
Proof.
  intros Hu. rewrite parseInt_10, units_stripSign_trimStart. cbn [fst snd].
  destruct (takeDigits 10 (units u)) as [| d ds] eqn:E.
  - now apply units_takeDigits_nil in E.
  - rewrite <- E, units_mathInt. now rewrite Z.mul_1_l.
Qed.

Lemma parseInt_minus_units (u : Decimal.uint) :
  u <> Decimal.Nil ->
  parseInt (45%N :: units u) 10 = toF (- Z.of_N (Pos.of_uint u)).
Proof.
  intros Hu. rewrite parseInt_10.
  change (trimStart (45%N :: units u)) with (45%N :: units u).
  change (stripSign (45%N :: units u)) with (-1, units u). cbn [fst snd].
  destruct (takeDigits 10 (units u)) as [| d ds] eqn:E.
  - now apply units_takeDigits_nil in E.
  - rewrite <- E, units_mathInt. f_equal; lia.
Qed.

(** Parsing the rendering of an integer gives the double nearest to it. *)
Lemma parseInt_str (z : Z) : parseInt (str z) 10 = toF z.
Proof.
  unfold str. destruct z as [| p | p]; cbn [Z.to_int].
  - reflexivity.
  - rewrite parseInt_units by apply Unsigned.to_uint_nonnil.
    now rewrite Unsigned.of_to.
  - rewrite parseInt_minus_units by apply Unsigned.to_uint_nonnil.
    now rewrite Unsigned.of_to.
Qed.

Lemma str_not_empty (z : Z) : str z <> [].
Proof.
  unfold str. destruct z as [| p | p]; cbn [Z.to_int]; try discriminate.
  pose proof (Unsigned.to_uint_nonnil p) as H.
  destruct (Pos.to_uint p); [contradiction | ..]; discriminate.
Qed.

(** ** The four paths of [checkAnswer] *)

Lemma checkAnswer_missing (s : State) :
  userAnswer s = [] -> checkAnswer s = (s, missingAnswerToast).
Proof. intros H. unfold checkAnswer. now rewrite H. Qed.

Lemma checkAnswer_not_a_number (s : State) :
  userAnswer s <> [] ->
  parseInt (userAnswer s) 10 = NaN ->
  checkAnswer s = (s, notANumberToast).
Proof.
  intros Hne Hnan. unfold checkAnswer.
  destruct (userAnswer s) as [| c r] eqn:E; [contradiction|].
  cbn [isEmpty]. now rewrite Hnan.
Qed.

Lemma checkAnswer_correct (s : State) :
  userAnswer s <> [] ->
  parseInt (userAnswer s) 10 = Int (answer (currentProblem s)) ->
  checkAnswer s = (setShowFeedback true (setIsCorrect true s), greatJobToast).
Proof.
  intros Hne Hp. unfold checkAnswer.
  destruct (userAnswer s) as [| c r] eqn:E; [contradiction|].
  cbn [isEmpty]. rewrite Hp. cbn [isNaN strict_equals].
  now rewrite Z.eqb_refl.
Qed.

Lemma checkAnswer_incorrect (s : State) :
  userAnswer s <> [] ->
  parseInt (userAnswer s) 10 <> NaN ->
  parseInt (userAnswer s) 10 <> Int (answer (currentProblem s)) ->
  checkAnswer s = (setShowFeedback true (setIsCorrect false s), notQuiteToast).
Proof.
  intros Hne Hnan Hp. unfold checkAnswer.
  destruct (userAnswer s) as [| c r] eqn:E; [contradiction|].
  cbn [isEmpty].
  destruct (isNaN (parseInt (c :: r) 10)) eqn:EN.
  - now apply isNaN_true in EN.
  - destruct (strict_equals (parseInt (c :: r) 10) (Int (answer (currentProblem s))))
      eqn:ES; [|reflexivity].
    now apply strict_equals_Int in ES.
Qed.

Lemma number_eq_dec (x y : number) : {x = y} + {x <> y}.
Proof. decide equality; [apply Bool.bool_dec | apply Z.eq_dec]. Qed.

(** Every call of [checkAnswer] follows one of the four paths. *)
Lemma checkAnswer_checks (s : State) :
  checks s (fst (checkAnswer s)) (snd (checkAnswer s)).
Proof.
  destruct (userAnswer s) as [| c r] eqn:E.
  - rewrite checkAnswer_missing by assumption. now constructor.
  - assert (Hne : userAnswer s <> []) by (rewrite E; discriminate).
    destruct (number_eq_dec (parseInt (userAnswer s) 10) NaN) as [Hn | Hn].
    + rewrite checkAnswer_not_a_number by assumption. now constructor.
    + destruct (number_eq_dec (parseInt (userAnswer s) 10)
                  (Int (answer (currentProblem s)))) as [Hp | Hp].
      * rewrite checkAnswer_correct by assumption. now constructor.
      * rewrite checkAnswer_incorrect by assumption. now constructor.
Qed.

(** The two flags that a path sets, read off the state it leaves. *)
Lemma checks_flags (s s' : State) (t : Toast) :
  checks s s' t ->
  currentProblem s' = currentProblem s /\ userAnswer s' = userAnswer s
  /\ showHints s' = showHints s
  /\ (t = greatJobToast -> showFeedback s' = true /\ isCorrect s' = true)
  /\ (t = notQuiteToast -> showFeedback s' = true /\ isCorrect s' = false)
  /\ (t = missingAnswerToast \/ t = notANumberToast -> s' = s).
Proof.
  intros H. destruct H; repeat split; auto;
    try match goal with H' : _ = _ :> Toast |- _ => discriminate H' end;
    intros [H' | H']; discriminate H'.
Qed.

(** ** Answer checking *)

(** C1.  Whatever the current problem, typing the decimal rendering of its
    answer and checking it takes the last path of [checkAnswer] with
    [correct] true:
    [parseInt] reads the rendering back as the answer itself, the
    comparison with [currentProblem.answer] holds, [isCorrect] is set and
    the "Great job!" toast is shown. *)
Theorem exact_answer_is_correct (s : State) :
  userAnswer s = str (answer (currentProblem s)) ->
  parseInt (userAnswer s) 10 = Int (answer (currentProblem s))
  /\ checkAnswer s = (setShowFeedback true (setIsCorrect true s), greatJobToast)
  /\ isCorrect (fst (checkAnswer s)) = true.
Proof.
  intros Hin.
  assert (Hp : parseInt (userAnswer s) 10 = Int (answer (currentProblem s))).
  { rewrite Hin, parseInt_str. apply toF_is_double, answer_number. }
  assert (Hne : userAnswer s <> []) by (rewrite Hin; apply str_not_empty).
  rewrite (checkAnswer_correct s Hne Hp). auto.
Qed.

Lemma exact_answer_is_correct_seven :
  userAnswer (Samples.typed Samples.seven (utf16 "7")) = str 7
  /\ parseInt (utf16 "7") 10 = Int 7
  /\ checkAnswer (Samples.typed Samples.seven (utf16 "7"))
     = (Samples.solved Samples.seven (utf16 "7"), greatJobToast)
  /\ isCorrect (fst (checkAnswer (Samples.typed Samples.seven (utf16 "7")))) = true.
Proof.
  split; [reflexivity|].
  apply (exact_answer_is_correct (Samples.typed Samples.seven (utf16 "7"))).
  reflexivity.
Defined.

(** C2.  On an input that is not empty and from which [parseInt] gets NaN,
    [checkAnswer] shows the "That's not a number" toast and leaves the
    state as it was.  [parseInt] gets NaN exactly from the strings that,
    leading white space and one sign skipped, do not go on with a decimal
    digit; "abc" is one of them, whatever the current problem. *)
Theorem unparseable_input_is_not_a_number (s : State) :
  (userAnswer s <> [] -> parseInt (userAnswer s) 10 = NaN ->
   checkAnswer s = (s, notANumberToast))
  /\ (userAnswer s <> [] ->
      match snd (stripSign (trimStart (userAnswer s))) with
      | [] => True
      | c :: _ => isDecimalDigit c = false
      end ->
      checkAnswer s = (s, notANumberToast))
  /\ (userAnswer s = utf16 "abc" -> checkAnswer s = (s, notANumberToast)).
Proof.
  split; [| split].
  - apply checkAnswer_not_a_number.
  - intros Hne Hd. apply checkAnswer_not_a_number; [assumption|].
    now apply parseInt_10_NaN.
  - intros Hin. apply checkAnswer_not_a_number; rewrite Hin;
      [discriminate | reflexivity].
Qed.

Lemma unparseable_input_is_not_a_number_abc :
  (userAnswer (Samples.typed Samples.seven (utf16 "abc")) <> []
   /\ parseInt (utf16 "abc") 10 = NaN
   /\ isDecimalDigit 97%N = false
   /\ userAnswer (Samples.typed Samples.seven (utf16 "abc")) = utf16 "abc")
  /\ checkAnswer (Samples.typed Samples.seven (utf16 "abc"))
     = (Samples.typed Samples.seven (utf16 "abc"), notANumberToast).
Proof.
  assert (Hne : userAnswer (Samples.typed Samples.seven (utf16 "abc")) <> [])
    by discriminate.
  destruct (unparseable_input_is_not_a_number
              (Samples.typed Samples.seven (utf16 "abc"))) as (H1 & H2 & H3).
  split; [repeat split; assumption|].
  pose proof (H2 Hne eq_refl) as _.
  pose proof (H3 eq_refl) as _.
  exact (H1 Hne eq_refl).
Defined.

(** C3.  On the empty input [checkAnswer] shows the "Don't forget to
    answer!" toast and leaves the state as it was.  The test for the empty
    string comes first: [parseInt] gets NaN from the empty string, so the
    second test would hold as well, yet its toast is not the one shown. *)
Theorem empty_input_is_missing_answer (s : State) :
  userAnswer s = [] ->
  checkAnswer s = (s, missingAnswerToast)
  /\ snd (checkAnswer s) <> notANumberToast
  /\ isNaN (parseInt (userAnswer s) 10) = true.
Proof.
  intros Hin. rewrite (checkAnswer_missing s Hin), Hin.
  split; [reflexivity | split]; [discriminate | reflexivity].
Qed.

Lemma empty_input_is_missing_answer_seven :
  userAnswer (Samples.typed Samples.seven []) = []
  /\ checkAnswer (Samples.typed Samples.seven [])
     = (Samples.typed Samples.seven [], missingAnswerToast).
Proof.
  split; [reflexivity|].
  apply (empty_input_is_missing_answer (Samples.typed Samples.seven [])).
  reflexivity.
Defined.

(** C4.  When [checkAnswer] takes one of its two early returns, on the
    empty input or on an input from which [parseInt] gets NaN, the state it
    leaves is the state it found: none of [currentProblem], [userAnswer],
    [isCorrect], [showFeedback] and [showHints] has changed.  The early
    returns are the calls that show one of the two corrective toasts. *)
Theorem errors_leave_the_state (s : State) :
  (userAnswer s = [] \/ parseInt (userAnswer s) 10 = NaN ->
   fst (checkAnswer s) = s
   /\ (snd (checkAnswer s) = missingAnswerToast
       \/ snd (checkAnswer s) = notANumberToast))
  /\ (snd (checkAnswer s) = missingAnswerToast
      \/ snd (checkAnswer s) = notANumberToast ->
      fst (checkAnswer s) = s
      /\ (userAnswer s = [] \/ parseInt (userAnswer s) 10 = NaN)).
Proof.
  split.
  - intros H.
    destruct (userAnswer s) as [| c r] eqn:E.
    + rewrite (checkAnswer_missing s E). cbn. auto.
    + destruct H as [H | H]; [discriminate H|].
      assert (Hne : userAnswer s <> []) by (rewrite E; discriminate).
      rewrite <- E in H.
      rewrite (checkAnswer_not_a_number s Hne H). cbn. auto.
  - intros H. pose proof (checkAnswer_checks s) as C.
    destruct (checkAnswer s) as [s' t]. cbn [fst snd] in *.
    destruct C; auto;
      destruct H as [H | H]; discriminate H.
Qed.

Lemma errors_leave_the_state_abc :
  (parseInt (userAnswer (Samples.solved Samples.seven (utf16 "abc"))) 10 = NaN
   /\ snd (checkAnswer (Samples.solved Samples.seven (utf16 "abc")))
      = notANumberToast)
  /\ fst (checkAnswer (Samples.solved Samples.seven (utf16 "abc")))
     = Samples.solved Samples.seven (utf16 "abc").
Proof.
  split; [split; reflexivity|].
  destruct (errors_leave_the_state (Samples.solved Samples.seven (utf16 "abc")))
    as (H1 & H2).
  pose proof (H2 (or_intror eq_refl)) as _.
  exact (proj1 (H1 (or_intror eq_refl))).
Defined.

(** C5.  Typing the decimal rendering of the current problem's answer plus
    one and checking it takes the last path of [checkAnswer] with [correct]
    false: [parseInt] reads the rendering back as the answer plus one,
    [isCorrect] is cleared and the "Not quite right" toast is shown.  The
    hypothesis is the range of a problem's answer: the operands of a
    problem lie in the range of its level (1 to 10 at level 1, the only
    level the component asks the generator for), so its answer is a safe
    integer, and the successor of a safe integer is again an integer that
    a double holds ([isSafeInteger_succ_is_double]). *)
Theorem successor_is_incorrect (s : State) :
  is_double (answer (currentProblem s) + 1) = true ->
  userAnswer s = str (answer (currentProblem s) + 1) ->
  parseInt (userAnswer s) 10 = Int (answer (currentProblem s) + 1)
  /\ checkAnswer s = (setShowFeedback true (setIsCorrect false s), notQuiteToast)
  /\ isCorrect (fst (checkAnswer s)) = false.
Proof.
  intros Hd Hin.
  assert (Hp : parseInt (userAnswer s) 10 = Int (answer (currentProblem s) + 1)).
  { rewrite Hin, parseInt_str. now apply toF_is_double. }
  assert (Hne : userAnswer s <> []) by (rewrite Hin; apply str_not_empty).
  rewrite (checkAnswer_incorrect s Hne).
  - auto.
  - rewrite Hp. discriminate.
  - rewrite Hp. intros H. injection H as H. lia.
Qed.

Lemma successor_is_incorrect_seven :
  (is_double (answer Samples.seven + 1) = true
   /\ userAnswer (Samples.typed Samples.seven (utf16 "8"))
      = str (answer Samples.seven + 1))
  /\ parseInt (utf16 "8") 10 = Int 8
  /\ isCorrect (fst (checkAnswer (Samples.typed Samples.seven (utf16 "8"))))
     = false.
Proof.
  split; [split; reflexivity|].
  pose proof (successor_is_incorrect (Samples.typed Samples.seven (utf16 "8"))
                eq_refl eq_refl) as [Hp [_ Hc]].
  split; [exact Hp | exact Hc].
Defined.

(** ** The session *)

Section SessionProperties.

Variable World : Type.
Variable generateAlgebraProblem : Z -> World -> Problem * World.

Lemma nextProblem_fields (s : State) (w : World) :
  nextProblem generateAlgebraProblem s w =
  ({| currentProblem := fst (generateAlgebraProblem 1 w);
      userAnswer := [];
      showFeedback := false;
      isCorrect := isCorrect s;
      showHints := false |},
   snd (generateAlgebraProblem 1 w)).
Proof.
  unfold nextProblem.
  destruct (generateAlgebraProblem 1 w) as [p w']. reflexivity.
Qed.

(** While both controls are disabled, an event other than the next
    challenge changes nothing but the hint toggle. *)
Lemma step_locked (e : Event) (w : World) (s : State) :
  showFeedback s = true -> isCorrect s = true ->
  e <> NextChallenge ->
  exists h : bool,
    fst (step generateAlgebraProblem e w s) = setShowHints h s.
Proof.
  intros Hf Hc He. unfold step, inputDisabled, checkDisabled.
  rewrite Hf, Hc.
  destruct e; cbn; try contradiction;
    [exists (showHints s) | exists (showHints s) | exists (negb (showHints s))];
    destruct s; reflexivity.
Qed.

Lemma run_locked (es : list (Event * World)) : forall s : State,
  showFeedback s = true -> isCorrect s = true ->
  Forall (fun ew => fst ew <> NextChallenge) es ->
  exists h : bool, run generateAlgebraProblem es s = setShowHints h s.
Proof.
  induction es as [| [e w] es IH]; intros s Hf Hc Hes.
  - exists (showHints s). destruct s; reflexivity.
  - inversion Hes as [| ew es' He Hes']; subst. cbn [fst] in He.
    destruct (step_locked e w s Hf Hc He) as [h Hs].
    cbn [run]. rewrite Hs.
    destruct (IH (setShowHints h s) Hf Hc Hes') as [h' Hr].
    exists h'. rewrite Hr. reflexivity.
Qed.

(** C6.  A correct check disables the answer input and the Check
    button, and they stay disabled, with the same problem and the same
    input, through every run of events that has no next challenge in it;
    the next challenge enables them again.  [checkAnswer] never touches
    [currentProblem]: after an incorrect check the controls are enabled,
    the problem is the one that was checked, and a click on Check runs
    [checkAnswer] again. *)
Theorem correct_locks_incorrect_retries
    (s : State) (w : World) (es : list (Event * World)) :
  (snd (checkAnswer s) = greatJobToast ->
   inputDisabled (fst (checkAnswer s)) = true
   /\ checkDisabled (fst (checkAnswer s)) = true)
  /\ (showFeedback s = true -> isCorrect s = true ->
      Forall (fun ew => fst ew <> NextChallenge) es ->
      inputDisabled (run generateAlgebraProblem es s) = true
      /\ checkDisabled (run generateAlgebraProblem es s) = true
      /\ currentProblem (run generateAlgebraProblem es s) = currentProblem s
      /\ userAnswer (run generateAlgebraProblem es s) = userAnswer s)
  /\ (showFeedback s = true -> isCorrect s = true ->
      fst (step generateAlgebraProblem NextChallenge w s)
      = fst (nextProblem generateAlgebraProblem s w)
      /\ inputDisabled (fst (nextProblem generateAlgebraProblem s w)) = false
      /\ checkDisabled (fst (nextProblem generateAlgebraProblem s w)) = false)
  /\ currentProblem (fst (checkAnswer s)) = currentProblem s
  /\ (snd (checkAnswer s) = notQuiteToast ->
      inputDisabled (fst (checkAnswer s)) = false
      /\ checkDisabled (fst (checkAnswer s)) = false
      /\ userAnswer (fst (checkAnswer s)) = userAnswer s
      /\ step generateAlgebraProblem ClickCheck w (fst (checkAnswer s))
         = (fst (checkAnswer (fst (checkAnswer s))),
            Some (snd (checkAnswer (fst (checkAnswer s)))))).
Proof.
  pose proof (checks_flags _ _ _ (checkAnswer_checks s))
    as (Hp & Hu & _ & Hgreat & Hquite & _).
  split; [| split; [| split; [| split]]].
  - intros Ht. destruct (Hgreat Ht) as [Hf Hc].
    unfold inputDisabled, checkDisabled. now rewrite Hf, Hc.
  - intros Hf Hc Hes.
    destruct (run_locked es s Hf Hc Hes) as [h Hr]. rewrite Hr.
    unfold inputDisabled, checkDisabled. cbn. now rewrite Hf, Hc.
  - intros Hf Hc.
    unfold step. rewrite Hf, nextProblem_fields. cbn. auto.
  - exact Hp.
  - intros Ht. destruct (Hquite Ht) as [Hf Hc].
    unfold step, inputDisabled, checkDisabled.
    rewrite Hf, Hc. cbn [andb].
    destruct (checkAnswer (fst (checkAnswer s))). auto.
Qed.

(** C7.  From any state [nextProblem] puts in [currentProblem] the
    problem that a new call of the generator at level 1 gives, empties
    [userAnswer], and clears [showFeedback] and [showHints]: but for
    [isCorrect], which it keeps, the state is the one on mount, with
    both controls enabled. *)
Theorem nextProblem_returns_to_idle (s : State) (w : World) :
  currentProblem (fst (nextProblem generateAlgebraProblem s w))
  = fst (generateAlgebraProblem 1 w)
  /\ userAnswer (fst (nextProblem generateAlgebraProblem s w)) = []
  /\ showFeedback (fst (nextProblem generateAlgebraProblem s w)) = false
  /\ showHints (fst (nextProblem generateAlgebraProblem s w)) = false
  /\ inputDisabled (fst (nextProblem generateAlgebraProblem s w)) = false
  /\ checkDisabled (fst (nextProblem generateAlgebraProblem s w)) = false
  /\ nextProblem generateAlgebraProblem s w
     = (setIsCorrect (isCorrect s) (fst (mount generateAlgebraProblem w)),
        snd (mount generateAlgebraProblem w)).
Proof.
  rewrite nextProblem_fields. unfold mount.
  destruct (generateAlgebraProblem 1 w) as [p w']. cbn. tauto.
Qed.

(** C10.  Each of the two controls is disabled exactly when
    [showFeedback && isCorrect] holds.  [nextProblem] leaves [isCorrect]
    as it finds it: after a correct check it is still true, and the
    controls are enabled only because [showFeedback] is false; with
    [showFeedback] set again they would be disabled. *)
Theorem lock_is_released_by_showFeedback (s : State) (w : World) :
  inputDisabled s = showFeedback s && isCorrect s
  /\ checkDisabled s = showFeedback s && isCorrect s
  /\ isCorrect (fst (nextProblem generateAlgebraProblem s w)) = isCorrect s
  /\ (showFeedback s = true -> isCorrect s = true ->
      isCorrect (fst (nextProblem generateAlgebraProblem s w)) = true
      /\ showFeedback (fst (nextProblem generateAlgebraProblem s w)) = false
      /\ inputDisabled (fst (nextProblem generateAlgebraProblem s w)) = false
      /\ checkDisabled (fst (nextProblem generateAlgebraProblem s w)) = false
      /\ inputDisabled
           (setShowFeedback true (fst (nextProblem generateAlgebraProblem s w)))
         = true
      /\ checkDisabled
           (setShowFeedback true (fst (nextProblem generateAlgebraProblem s w)))
         = true).
Proof.
  rewrite nextProblem_fields. unfold inputDisabled, checkDisabled. cbn.
  repeat split; auto.
Qed.

End SessionProperties.

Lemma correct_locks_incorrect_retries_seven :
  (showFeedback (Samples.solved Samples.seven (utf16 "7")) = true
   /\ isCorrect (Samples.solved Samples.seven (utf16 "7")) = true
   /\ Forall (fun ew => fst ew <> NextChallenge)
        [(Change (utf16 "9"), tt); (ClickCheck, tt); (ClickHints, tt)]
   /\ snd (checkAnswer (Samples.typed Samples.seven (utf16 "7"))) = greatJobToast
   /\ snd (checkAnswer (Samples.typed Samples.seven (utf16 "9"))) = notQuiteToast)
  /\ inputDisabled (fst (checkAnswer (Samples.typed Samples.seven (utf16 "7"))))
     = true
  /\ userAnswer (run Samples.always_seven
                   [(Change (utf16 "9"), tt); (ClickCheck, tt); (ClickHints, tt)]
                   (Samples.solved Samples.seven (utf16 "7")))
     = utf16 "7"
  /\ inputDisabled (fst (nextProblem Samples.always_seven
                           (Samples.solved Samples.seven (utf16 "7")) tt))
     = false
  /\ inputDisabled (fst (checkAnswer (Samples.typed Samples.seven (utf16 "9"))))
     = false.
Proof.
  assert (Hes : Forall (fun ew : Event * unit => fst ew <> NextChallenge)
                  [(Change (utf16 "9"), tt); (ClickCheck, tt); (ClickHints, tt)])
    by (repeat constructor; discriminate).
  split; [repeat (split; [reflexivity|]); split; [exact Hes | split; reflexivity] |].
  destruct (correct_locks_incorrect_retries unit Samples.always_seven
              (Samples.typed Samples.seven (utf16 "7")) tt [])
    as (Hgreat & _).
  destruct (correct_locks_incorrect_retries unit Samples.always_seven
              (Samples.solved Samples.seven (utf16 "7")) tt
              [(Change (utf16 "9"), tt); (ClickCheck, tt); (ClickHints, tt)])
    as (_ & Hrun & Hnext & _).
  destruct (correct_locks_incorrect_retries unit Samples.always_seven
              (Samples.typed Samples.seven (utf16 "9")) tt [])
    as (_ & _ & _ & _ & Hquite).
  split; [exact (proj1 (Hgreat eq_refl))|].
  split; [exact (proj2 (proj2 (proj2 (Hrun eq_refl eq_refl Hes))))|].
  split; [exact (proj1 (proj2 (Hnext eq_refl eq_refl)))|].
  exact (proj1 (Hquite eq_refl)).
Defined.

Lemma lock_is_released_by_showFeedback_seven :
  (showFeedback (Samples.solved Samples.seven (utf16 "7")) = true
   /\ isCorrect (Samples.solved Samples.seven (utf16 "7")) = true)
  /\ isCorrect (fst (nextProblem Samples.always_seven
                       (Samples.solved Samples.seven (utf16 "7")) tt)) = true
  /\ inputDisabled (fst (nextProblem Samples.always_seven
                           (Samples.solved Samples.seven (utf16 "7")) tt)) = false.
Proof.
  split; [split; reflexivity|].
  pose proof (proj2 (proj2 (proj2
    (lock_is_released_by_showFeedback unit Samples.always_seven
       (Samples.solved Samples.seven (utf16 "7")) tt))) eq_refl eq_refl)
    as (Hc & _ & Hi & _).
  split; [exact Hc | exact Hi].
Defined.

(** * Further properties *)

(** ** More on [parseInt] in radix ten *)

Lemma trimStart_app (ws rest : jsstring) :
  allWhiteSpace ws -> trimStart (ws ++ rest) = trimStart rest.
Proof.
  induction 1 as [| c ws Hc _ IH]; [reflexivity|].
  cbn [app trimStart]. now rewrite Hc.
Qed.

Lemma takeDigits_noDigitAhead (s : jsstring) :
  noDigitAhead s -> takeDigits 10 s = [].
Proof.
  destruct s as [| c r]; [reflexivity|].
  cbn [noDigitAhead takeDigits]. rewrite radixDigit_10. now intros ->.
Qed.

Lemma takeDigits_units_app (u : Decimal.uint) (tail : jsstring) :
  takeDigits 10 (units u ++ tail) = takeDigits 10 (units u) ++ takeDigits 10 tail.
Proof.
  induction u; [reflexivity | ..];
    cbn [units app]; unfold takeDigits; fold takeDigits; eval_radixDigit;
    cbn [app]; now rewrite IHu.
Qed.

Lemma takeDigits_zeros_app (n : nat) (s : jsstring) :
  takeDigits 10 (repeat 48%N n ++ s) = repeat 0 n ++ takeDigits 10 s.
Proof.
  induction n as [| n IH]; [reflexivity|].
  cbn [repeat app]. unfold takeDigits; fold takeDigits. eval_radixDigit.
  now rewrite IH.
Qed.

Lemma mathInt_zeros_app (n : nat) (ds : list Z) :
  mathInt 10 (repeat 0 n ++ ds) = mathInt 10 ds.
Proof.
  unfold mathInt. induction n as [| n IH]; [reflexivity|].
  cbn [repeat app fold_left]. exact IH.
Qed.

(** The rendering of an integer: a sign and a digit sequence that is not
    empty. *)
Lemma str_sign_units (z : Z) :
  exists u : Decimal.uint,
    u <> Decimal.Nil /\ Z.of_N (Pos.of_uint u) = Z.abs z
    /\ str z = (if z <? 0 then [45%N] else []) ++ units u.
Proof.
  destruct z as [| p | p].
  - exists (Decimal.D0 Decimal.Nil). repeat split; discriminate.
  - exists (Pos.to_uint p). split; [apply Unsigned.to_uint_nonnil|].
    split; [now rewrite Unsigned.of_to | reflexivity].
  - exists (Pos.to_uint p). split; [apply Unsigned.to_uint_nonnil|].
    split; [now rewrite Unsigned.of_to | reflexivity].
Qed.

Lemma units_head (u : Decimal.uint) :
  u <> Decimal.Nil ->
  exists c r, units u = c :: r /\ isDecimalDigit c = true.
Proof.
  destruct u; [contradiction | ..]; intros _; eexists; eexists;
    (split; [reflexivity | reflexivity]).
Qed.

Lemma isDecimalDigit_not_space (c : code_unit) :
  isDecimalDigit c = true -> isStrWhiteSpaceChar c = false.
Proof.
  unfold isDecimalDigit, isStrWhiteSpaceChar. intros H.
  apply andb_prop in H. destruct H as [H1 H2].
  apply N.leb_le in H1. apply N.leb_le in H2.
  repeat match goal with
  | |- context [(?a <=? ?b)%N] => destruct (N.leb_spec a b); try lia
  | |- context [(?a =? ?b)%N] => destruct (N.eqb_spec a b); try lia
  end; reflexivity.
Qed.

(** What [parseInt] makes of a digit sequence after an optional sign and
    zeros, and before anything that does not begin with a digit. *)
Lemma parseInt_digits (sign : jsstring) (sg : Z) (n : nat)
    (u : Decimal.uint) (tail : jsstring) :
  (sign = [] /\ sg = 1) \/ (sign = [43%N] /\ sg = 1) \/ (sign = [45%N] /\ sg = -1) ->
  u <> Decimal.Nil -> noDigitAhead tail ->
  parseInt (sign ++ repeat 48%N n ++ units u ++ tail) 10
  = toF (sg * Z.of_N (Pos.of_uint u)).
Proof.
  intros Hs Hu Ht. rewrite parseInt_10.
  assert (Hd : takeDigits 10 (repeat 48%N n ++ units u ++ tail)
               = repeat 0 n ++ takeDigits 10 (units u)).
  { rewrite takeDigits_zeros_app, takeDigits_units_app.
    rewrite (takeDigits_noDigitAhead tail Ht). now rewrite app_nil_r. }
  assert (Hstrip : stripSign (trimStart (sign ++ repeat 48%N n ++ units u ++ tail))
                   = (sg, repeat 48%N n ++ units u ++ tail)).
  { destruct (units_head u Hu) as (c & r & Hc & Hdig).
    pose proof (isDecimalDigit_not_space c Hdig) as Hsp.
    assert (Hrest : exists c' r', repeat 48%N n ++ units u ++ tail = c' :: r'
                                  /\ isDecimalDigit c' = true).
    { destruct n as [| n].
      - exists c, (r ++ tail). rewrite Hc. auto.
      - exists 48%N, (repeat 48%N n ++ units u ++ tail). auto. }
    destruct Hrest as (c' & r' & Hr & Hdig').
    pose proof (isDecimalDigit_not_space c' Hdig') as Hsp'.
    rewrite Hr.
    assert (Hnosign : stripSign (c' :: r') = (1, c' :: r')).
    { unfold isDecimalDigit in Hdig'. apply andb_prop in Hdig'.
      destruct Hdig' as [H1 H2]. apply N.leb_le in H1. apply N.leb_le in H2.
      unfold stripSign.
      destruct (N.eq_dec c' 45) as [-> | N1]; [lia|].
      destruct (N.eq_dec c' 43) as [-> | N2]; [lia|].
      destruct c' as [| p]; [reflexivity|].
      repeat (destruct p as [p | p |]; try reflexivity; try lia). }
    destruct Hs as [[-> ->] | [[-> ->] | [-> ->]]]; cbn [app trimStart].
    - now rewrite Hsp'.
    - reflexivity.
    - reflexivity. }
  rewrite Hstrip. cbn [fst snd]. rewrite Hd.
  destruct (repeat 0 n ++ takeDigits 10 (units u)) as [| d ds] eqn:E.
  - apply app_eq_nil in E. destruct E as [_ E].
    now apply units_takeDigits_nil in E.
  - rewrite <- E, mathInt_zeros_app, units_mathInt. reflexivity.
Qed.

Lemma parseInt_trim (ws s : jsstring) :
  allWhiteSpace ws -> parseInt (ws ++ s) 10 = parseInt s 10.
Proof. intros H. now rewrite !parseInt_10, trimStart_app. Qed.

Lemma trimStart_allWhiteSpace (ws : jsstring) :
  allWhiteSpace ws -> trimStart ws = [].
Proof.
  intros H. rewrite <- (app_nil_r ws). now rewrite trimStart_app.
Qed.

Lemma toF_overflow (z : Z) :
  overflow_threshold <= Z.abs z -> toF z = Infinity (z <? 0).
Proof.
  intros H. unfold toF.
  assert (Ha : 0 < Z.abs z) by (unfold overflow_threshold in H; lia).
  assert (Hl : 1024 <= Z.log2 (Z.abs z)).
  { change 1024 with (Z.log2 (2 ^ 1024)). now apply Z.log2_le_mono. }
  destruct (Z.leb_spec (Z.log2 (Z.abs z) - 52) 0) as [He | He]; [lia|].
  set (e := Z.log2 (Z.abs z) - 52) in *.
  pose proof (Z.log2_spec (Z.abs z) Ha) as [Hlo _].
  assert (He2 : 0 < 2 ^ e) by (apply Z.pow_pos_nonneg; lia).
  assert (Hsplit : 2 ^ Z.log2 (Z.abs z) = 2 ^ e * 2 ^ 52).
  { rewrite <- Z.pow_add_r by lia. f_equal. unfold e. lia. }
  assert (Hq : 2 ^ 52 <= Z.abs z / 2 ^ e).
  { apply Z.div_le_lower_bound; lia. }
  assert (Hth : overflow_threshold <= 2 ^ Z.log2 (Z.abs z)).
  { unfold overflow_threshold. apply Z.pow_le_mono_r; lia. }
  match goal with
  | |- context [if ?c then Z.abs z / 2 ^ e + 1 else Z.abs z / 2 ^ e] =>
      set (q' := if c then Z.abs z / 2 ^ e + 1 else Z.abs z / 2 ^ e)
  end.
  assert (Hq' : Z.abs z / 2 ^ e <= q') by (unfold q'; destruct (_ || _); lia).
  destruct (Z.leb_spec overflow_threshold (q' * 2 ^ e)) as [_ | Hc]; [reflexivity|].
  exfalso.
  assert (2 ^ 52 * 2 ^ e <= q' * 2 ^ e) by (apply Z.mul_le_mono_nonneg_r; lia).
  lia.
Qed.

(** ** More on rounding *)

Lemma small_log2_isSafeInteger (z : Z) :
  Z.log2 (Z.abs z) - 52 <= 0 -> isSafeInteger z = true.
Proof.
  intros H. unfold isSafeInteger. apply Z.ltb_lt.
  destruct (Z.eq_dec (Z.abs z) 0) as [E | E]; [rewrite E; reflexivity|].
  apply Z.log2_lt_pow2; lia.
Qed.

(** A product [m * 2^e] with [2^52 <= m <= 2^53] is a double, unless it
    overflows. *)
Lemma is_double_scaled (m e : Z) :
  0 <= e -> 2 ^ 52 <= m <= 2 ^ 53 -> m * 2 ^ e < overflow_threshold ->
  is_double (m * 2 ^ e) = true.
Proof.
  intros He Hm Hlt. unfold is_double.
  assert (H52 : 0 < 2 ^ 52) by reflexivity.
  assert (He2 : 0 < 2 ^ e) by (apply Z.pow_pos_nonneg; lia).
  assert (Habs : Z.abs (m * 2 ^ e) = m * 2 ^ e) by (apply Z.abs_eq; nia).
  rewrite Habs. apply andb_true_intro. split; [now apply Z.ltb_lt|].
  apply Z.eqb_eq.
  rewrite Z.log2_mul_pow2 by lia.
  destruct (Z.eq_dec m (2 ^ 53)) as [-> | Hne].
  - rewrite Z.log2_pow2 by lia.
    replace (Z.max 0 (e + 53 - 52)) with (e + 1) by lia.
    replace (2 ^ 53 * 2 ^ e) with (2 ^ 52 * 2 ^ (e + 1)).
    + apply Z.mod_mul. apply Z.pow_nonzero; lia.
    + rewrite Z.pow_add_r by lia. change (2 ^ 53) with (2 ^ 52 * 2). lia.
  - assert (Hl : Z.log2 m = 52).
    { apply Z.log2_unique; [lia|]. change (2 ^ Z.succ 52) with (2 ^ 53). lia. }
    rewrite Hl. replace (Z.max 0 (e + 52 - 52)) with e by lia.
    apply Z.mod_mul. lia.
Qed.

Lemma is_double_opp (z : Z) : is_double (- z) = is_double z.
Proof. unfold is_double. now rewrite Z.abs_opp. Qed.

(** Rounding gives a double, or overflows. *)
Lemma toF_Int_is_double (z v : Z) : toF z = Int v -> is_double v = true.
Proof.
  unfold toF.
  destruct (Z.leb_spec (Z.log2 (Z.abs z) - 52) 0) as [He | He].
  - intros H. injection H as <-.
    now apply isSafeInteger_is_double, small_log2_isSafeInteger.
  - set (e := Z.log2 (Z.abs z) - 52) in *.
    match goal with
    | |- context [if ?c then Z.abs z / 2 ^ e + 1 else Z.abs z / 2 ^ e] =>
        set (q' := if c then Z.abs z / 2 ^ e + 1 else Z.abs z / 2 ^ e)
    end.
    destruct (Z.leb_spec overflow_threshold (q' * 2 ^ e)) as [| Hlt];
      [discriminate|].
    intros H. injection H as <-.
    assert (Ha : 0 < Z.abs z).
    { destruct (Z.eq_dec (Z.abs z) 0) as [E | E]; [| lia].
      unfold e in He. rewrite E in He. cbn in He. lia. }
    pose proof (Z.log2_spec (Z.abs z) Ha) as [Hlo Hhi].
    assert (He2 : 0 < 2 ^ e) by (apply Z.pow_pos_nonneg; lia).
    assert (Hsplit : 2 ^ Z.log2 (Z.abs z) = 2 ^ e * 2 ^ 52).
    { rewrite <- Z.pow_add_r by lia. f_equal. unfold e. lia. }
    assert (Hsplit' : 2 ^ Z.succ (Z.log2 (Z.abs z)) = 2 ^ e * 2 ^ 53).
    { rewrite <- Z.pow_add_r by lia. f_equal. unfold e. lia. }
    assert (Hq1 : 2 ^ 52 <= Z.abs z / 2 ^ e)
      by (apply Z.div_le_lower_bound; lia).
    assert (Hq2 : Z.abs z / 2 ^ e < 2 ^ 53)
      by (apply Z.div_lt_upper_bound; lia).
    assert (Hq' : 2 ^ 52 <= q' <= 2 ^ 53) by (unfold q'; destruct (_ || _); lia).
    pose proof (is_double_scaled q' e ltac:(lia) Hq' Hlt) as Hd.
    destruct z as [| p | p]; [lia | | ].
    + now rewrite Z.mul_1_l.
    + change (Z.sgn (Z.neg p)) with (-1).
      replace (-1 * (q' * 2 ^ e)) with (- (q' * 2 ^ e)) by lia.
      now rewrite is_double_opp.
Qed.

(** ** More on answer checking *)

Lemma parseInt_nil : parseInt [] 10 = NaN.
Proof. reflexivity. Qed.

Lemma parseInt_Int_not_empty (s : jsstring) (z : Z) :
  parseInt s 10 = Int z -> s <> [].
Proof. intros H ->. discriminate H. Qed.

(** The toast tells the path. *)
Lemma checks_toast (s s' : State) (t : Toast) :
  checks s s' t ->
  (t = missingAnswerToast -> userAnswer s = [])
  /\ (t = notANumberToast -> userAnswer s <> [] /\ parseInt (userAnswer s) 10 = NaN)
  /\ (t = greatJobToast ->
      parseInt (userAnswer s) 10 = Int (answer (currentProblem s)))
  /\ (t = notQuiteToast ->
      parseInt (userAnswer s) 10 <> NaN
      /\ parseInt (userAnswer s) 10 <> Int (answer (currentProblem s))).
Proof.
  intros H. destruct H; repeat split; auto;
    try match goal with H' : _ = _ :> Toast |- _ => discriminate H' end;
    intros H'; discriminate H'.
Qed.

Lemma greatJob_iff (s : State) :
  snd (checkAnswer s) = greatJobToast
  <-> parseInt (userAnswer s) 10 = Int (answer (currentProblem s)).
Proof.
  split.
  - intros H. now apply (checks_toast _ _ _ (checkAnswer_checks s)).
  - intros H. rewrite checkAnswer_correct; [reflexivity | | assumption].
    now apply parseInt_Int_not_empty in H.
Qed.

(** X1.  The toast that [checkAnswer] shows tells the path it took: the
    "Don't forget to answer!" toast exactly on the empty input, the "That's
    not a number" toast exactly on a non-empty input from which [parseInt]
    gets NaN, the "Great job!" toast exactly when [parseInt] gets the
    answer, and the "Not quite right" toast exactly when it gets another
    number.  The variant is "default" for the "Great job!" toast only. *)
Theorem toast_tells_the_path (s : State) :
  (snd (checkAnswer s) = missingAnswerToast <-> userAnswer s = [])
  /\ (snd (checkAnswer s) = notANumberToast
      <-> userAnswer s <> [] /\ parseInt (userAnswer s) 10 = NaN)
  /\ (snd (checkAnswer s) = greatJobToast
      <-> parseInt (userAnswer s) 10 = Int (answer (currentProblem s)))
  /\ (snd (checkAnswer s) = notQuiteToast
      <-> parseInt (userAnswer s) 10 <> NaN
          /\ parseInt (userAnswer s) 10 <> Int (answer (currentProblem s)))
  /\ (variant (snd (checkAnswer s)) = "default"%string
      <-> snd (checkAnswer s) = greatJobToast).
Proof.
  pose proof (checks_toast _ _ _ (checkAnswer_checks s)) as (H1 & H2 & H3 & H4).
  split; [| split; [| split; [| split]]].
  - split; [exact H1 | intros H; now rewrite checkAnswer_missing].
  - split; [exact H2 | intros [Hne Hn]; now rewrite checkAnswer_not_a_number].
  - apply greatJob_iff.
  - split; [exact H4|]. intros [Hn Hp].
    rewrite checkAnswer_incorrect; [reflexivity | | assumption | assumption].
    intros He. rewrite He in Hn. now apply Hn.
  - split; [| now intros ->].
    destruct (checkAnswer_checks s); cbn; intros Hv; try discriminate Hv; reflexivity.
Qed.

Lemma checkAnswer_str_iff (s : State) (z : Z) :
  userAnswer s = str z ->
  (snd (checkAnswer s) = greatJobToast <-> toF z = Int (answer (currentProblem s))).
Proof.
  intros Hin. rewrite greatJob_iff, Hin, parseInt_str. tauto.
Qed.

(** X2.  On the decimal rendering of an integer [z], [checkAnswer] shows
    the "Great job!" toast exactly when the double nearest to [z] is the
    answer; for a safe integer [z], exactly when [z] is the answer. *)
Theorem safe_input_is_correct_iff_equal (s : State) (z : Z) :
  userAnswer s = str z ->
  (snd (checkAnswer s) = greatJobToast <-> toF z = Int (answer (currentProblem s)))
  /\ (isSafeInteger z = true ->
      (snd (checkAnswer s) = greatJobToast <-> z = answer (currentProblem s))).
Proof.
  intros Hin. split; [now apply checkAnswer_str_iff|].
  intros Hs. rewrite (checkAnswer_str_iff s z Hin).
  rewrite (toF_is_double z (isSafeInteger_is_double z Hs)).
  split; [intros H; now injection H | now intros ->].
Qed.

Lemma safe_input_is_correct_iff_equal_seven :
  (userAnswer (Samples.typed Samples.seven (utf16 "8")) = str 8
   /\ isSafeInteger 8 = true)
  /\ snd (checkAnswer (Samples.typed Samples.seven (utf16 "8"))) <> greatJobToast.
Proof.
  split; [split; reflexivity|].
  intros H.
  apply (proj2 (safe_input_is_correct_iff_equal
                  (Samples.typed Samples.seven (utf16 "8")) 8 eq_refl) eq_refl) in H.
  discriminate H.
Defined.

Lemma parseInt_lenient (ws sign tail : jsstring) (n : nat) (z : Z) :
  allWhiteSpace ws -> signFor z sign -> noDigitAhead tail ->
  parseInt (ws ++ sign ++ repeat 48%N n ++ str (Z.abs z) ++ tail) 10 = toF z.
Proof.
  intros Hws Hs Ht. rewrite parseInt_trim by assumption.
  destruct (str_sign_units (Z.abs z)) as (u & Hu & Hv & Hstr).
  assert (Hneg : (Z.abs z <? 0) = false) by (apply Z.ltb_ge, Z.abs_nonneg).
  rewrite Hneg in Hstr. cbn [app] in Hstr. rewrite Hstr.
  rewrite Z.abs_idemp in Hv.
  unfold signFor in Hs. destruct (Z.ltb_spec z 0) as [Hz | Hz].
  - rewrite (parseInt_digits sign (-1) n u tail); auto. f_equal. lia.
  - rewrite (parseInt_digits sign 1 n u tail); [f_equal; lia | | auto | auto].
    destruct Hs as [-> | ->]; auto.
Qed.

(** X3.  [checkAnswer] takes for correct every input that reads: white
    space, the sign of the answer (none or a plus for an answer that is not
    negative), any number of zeros, the digits of the answer, and a rest
    that does not begin with a decimal digit. *)
Theorem padded_answer_is_correct (s : State) (ws sign tail : jsstring) (n : nat) :
  allWhiteSpace ws ->
  signFor (answer (currentProblem s)) sign ->
  noDigitAhead tail ->
  userAnswer s
  = ws ++ sign ++ repeat 48%N n ++ str (Z.abs (answer (currentProblem s))) ++ tail ->
  checkAnswer s = (setShowFeedback true (setIsCorrect true s), greatJobToast).
Proof.
  intros Hws Hs Ht Hin.
  assert (Hp : parseInt (userAnswer s) 10 = Int (answer (currentProblem s))).
  { rewrite Hin, parseInt_lenient by assumption.
    apply toF_is_double, answer_number. }
  apply checkAnswer_correct; [| assumption].
  now apply parseInt_Int_not_empty in Hp.
Qed.

Lemma padded_answer_is_correct_seven :
  (allWhiteSpace (utf16 " ") /\ signFor 7 (utf16 "+")
   /\ noDigitAhead (utf16 ".5")
   /\ userAnswer (Samples.typed Samples.seven (utf16 " +007.5"))
      = utf16 " " ++ utf16 "+" ++ repeat 48%N 2 ++ str (Z.abs 7) ++ utf16 ".5")
  /\ checkAnswer (Samples.typed Samples.seven (utf16 " +007.5"))
     = (Samples.solved Samples.seven (utf16 " +007.5"), greatJobToast).
Proof.
  assert (Hws : allWhiteSpace (utf16 " ")) by (repeat constructor).
  assert (Hs : signFor 7 (utf16 "+")) by (right; reflexivity).
  assert (Ht : noDigitAhead (utf16 ".5")) by reflexivity.
  split; [repeat split; assumption|].
  exact (padded_answer_is_correct (Samples.typed Samples.seven (utf16 " +007.5"))
           (utf16 " ") (utf16 "+") (utf16 ".5") 2 Hws Hs Ht eq_refl).
Defined.

(** X4.  On the rendering of an integer of magnitude 2^1024 or more,
    [parseInt] gets an infinity, which is not NaN and is no answer:
    [checkAnswer] takes the input for a wrong number, clears [isCorrect] and
    shows the "Not quite right" toast. *)
Theorem overflowing_input_is_incorrect (s : State) (z : Z) :
  overflow_threshold <= Z.abs z ->
  userAnswer s = str z ->
  parseInt (userAnswer s) 10 = Infinity (z <? 0)
  /\ checkAnswer s = (setShowFeedback true (setIsCorrect false s), notQuiteToast).
Proof.
  intros Hz Hin.
  assert (Hp : parseInt (userAnswer s) 10 = Infinity (z <? 0)).
  { rewrite Hin, parseInt_str. now apply toF_overflow. }
  split; [assumption|].
  apply checkAnswer_incorrect; rewrite ?Hp; try discriminate.
  rewrite Hin. apply str_not_empty.
Qed.

Lemma overflowing_input_is_incorrect_seven :
  (overflow_threshold <= Z.abs (2 ^ 1024)
   /\ userAnswer (Samples.typed Samples.seven (str (2 ^ 1024))) = str (2 ^ 1024))
  /\ snd (checkAnswer (Samples.typed Samples.seven (str (2 ^ 1024))))
     = notQuiteToast.
Proof.
  assert (Hz : overflow_threshold <= Z.abs (2 ^ 1024)) by (apply Z.leb_le; reflexivity).
  split; [split; [exact Hz | reflexivity]|].
  pose proof (overflowing_input_is_incorrect
                (Samples.typed Samples.seven (str (2 ^ 1024))) (2 ^ 1024) Hz eq_refl)
    as [_ H].
  rewrite H. reflexivity.
Defined.

(** X5.  An input that is not empty and is all white space, or white
    space and then a lone sign, gets the "That's not a number" toast, not
    the one for a missing answer, and the state stays as it was. *)
Theorem blank_input_is_not_a_number (s : State) :
  userAnswer s <> [] ->
  allWhiteSpace (userAnswer s)
  \/ (exists ws sign, allWhiteSpace ws /\ (sign = 43%N \/ sign = 45%N)
                      /\ userAnswer s = ws ++ [sign]) ->
  checkAnswer s = (s, notANumberToast).
Proof.
  intros Hne H. apply checkAnswer_not_a_number; [assumption|].
  apply parseInt_10_NaN.
  destruct H as [H | (ws & sign & Hws & Hs & ->)].
  - now rewrite trimStart_allWhiteSpace.
  - rewrite trimStart_app by assumption.
    destruct Hs as [-> | ->]; exact I.
Qed.

Lemma blank_input_is_not_a_number_spaces :
  (userAnswer (Samples.typed Samples.seven (utf16 "  ")) <> []
   /\ allWhiteSpace (utf16 "  "))
  /\ checkAnswer (Samples.typed Samples.seven (utf16 "  "))
     = (Samples.typed Samples.seven (utf16 "  "), notANumberToast).
Proof.
  assert (Hne : userAnswer (Samples.typed Samples.seven (utf16 "  ")) <> [])
    by discriminate.
  assert (Hws : allWhiteSpace (utf16 "  ")) by (repeat constructor).
  split; [split; assumption|].
  exact (blank_input_is_not_a_number (Samples.typed Samples.seven (utf16 "  "))
           Hne (or_introl Hws)).
Defined.

(** X6.  Every integer that [parseInt] gives in radix ten is one that a
    double holds exactly, as the answers it is compared with are. *)
Theorem parseInt_gives_doubles (s : jsstring) :
  match parseInt s 10 with
  | Int z => is_double z = true
  | _ => True
  end.
Proof.
  rewrite parseInt_10.
  destruct (takeDigits 10 (snd (stripSign (trimStart s)))) as [| d ds]; [exact I|].
  destruct (toF _) as [| b | z] eqn:E; try exact I.
  now apply toF_Int_is_double in E.
Qed.

(** ** More on the session *)

Lemma set_flags_twice (c : bool) (s : State) :
  setShowFeedback true (setIsCorrect c (setShowFeedback true (setIsCorrect c s)))
  = setShowFeedback true (setIsCorrect c s).
Proof. reflexivity. Qed.

(** The four paths, each with the equation it gives. *)
Lemma checkAnswer_cases (s : State) :
  (userAnswer s = [] /\ checkAnswer s = (s, missingAnswerToast))
  \/ (userAnswer s <> [] /\ parseInt (userAnswer s) 10 = NaN
      /\ checkAnswer s = (s, notANumberToast))
  \/ (userAnswer s <> []
      /\ parseInt (userAnswer s) 10 = Int (answer (currentProblem s))
      /\ checkAnswer s
         = (setShowFeedback true (setIsCorrect true s), greatJobToast))
  \/ (userAnswer s <> [] /\ parseInt (userAnswer s) 10 <> NaN
      /\ parseInt (userAnswer s) 10 <> Int (answer (currentProblem s))
      /\ checkAnswer s
         = (setShowFeedback true (setIsCorrect false s), notQuiteToast)).
Proof.
  destruct (userAnswer s) as [| c r] eqn:E.
  - left. split; [reflexivity | now apply checkAnswer_missing].
  - right. rewrite <- E.
    assert (Hne : userAnswer s <> []) by (rewrite E; discriminate).
    destruct (number_eq_dec (parseInt (userAnswer s) 10) NaN) as [Hn | Hn].
    + left. auto using checkAnswer_not_a_number.
    + right.
      destruct (number_eq_dec (parseInt (userAnswer s) 10)
                  (Int (answer (currentProblem s)))) as [Hp | Hp].
      * left. auto using checkAnswer_correct.
      * right. auto using checkAnswer_incorrect.
Qed.

(** X7.  Checking again what has just been checked changes nothing and
    shows the same toast. *)
Theorem checkAnswer_twice (s : State) :
  checkAnswer (fst (checkAnswer s)) = checkAnswer s.
Proof.
  destruct (checkAnswer_cases s)
    as [(He & ->) | [(Hne & Hn & ->) | [(Hne & Hp & ->) | (Hne & Hn & Hp & ->)]]];
    cbn [fst].
  - now apply checkAnswer_missing.
  - now apply checkAnswer_not_a_number.
  - now rewrite checkAnswer_correct.
  - now rewrite checkAnswer_incorrect.
Qed.

(** X8.  The hint toggle undoes itself, and it does not meet the check:
    toggling before [checkAnswer] or after it gives the same state and the
    same toast. *)
Theorem hints_do_not_meet_the_check (s : State) :
  toggleHints (toggleHints s) = s
  /\ checkAnswer (toggleHints s)
     = (toggleHints (fst (checkAnswer s)), snd (checkAnswer s)).
Proof.
  split.
  - destruct s as [p v f c h]. unfold toggleHints, setShowHints. cbn.
    now rewrite negb_involutive.
  - unfold checkAnswer. cbn [toggleHints setShowHints userAnswer currentProblem].
    destruct (isEmpty (userAnswer s)); [reflexivity|].
    destruct (isNaN (parseInt (userAnswer s) 10)); [reflexivity|].
    destruct (strict_equals _ _); reflexivity.
Qed.

Section SessionRuns.

Variable World : Type.
Variable generateAlgebraProblem : Z -> World -> Problem * World.

(** X9.  On the state that [nextProblem] leaves, and on the state on
    mount, [checkAnswer] shows the "Don't forget to answer!" toast and
    changes nothing, whatever problem the generator gave. *)
Theorem check_on_a_new_problem_is_missing_answer (s : State) (w : World) :
  checkAnswer (fst (nextProblem generateAlgebraProblem s w))
  = (fst (nextProblem generateAlgebraProblem s w), missingAnswerToast)
  /\ checkAnswer (fst (mount generateAlgebraProblem w))
     = (fst (mount generateAlgebraProblem w), missingAnswerToast).
Proof.
  split; apply checkAnswer_missing.
  - now rewrite nextProblem_fields.
  - unfold mount. now destruct (generateAlgebraProblem 1 w).
Qed.

Lemma step_keeps (e : Event) (w : World) (s : State) :
  e <> NextChallenge ->
  currentProblem (fst (step generateAlgebraProblem e w s)) = currentProblem s
  /\ (showFeedback s = true ->
      showFeedback (fst (step generateAlgebraProblem e w s)) = true).
Proof.
  intros He. destruct e; cbn [step]; try contradiction.
  - destruct (inputDisabled s); cbn; auto.
  - destruct (checkDisabled s); [cbn; auto|].
    pose proof (checkAnswer_checks s) as C.
    destruct (checkAnswer s) as [s' t]. cbn [fst snd] in *.
    destruct C; cbn; auto.
  - cbn. auto.
Qed.

(** X10.  Through a run of events with no next challenge in it, from any
    state, [currentProblem] stays what it was, and the feedback, once
    shown, stays shown. *)
Theorem only_the_next_challenge_changes_the_problem
    (es : list (Event * World)) (s : State) :
  Forall (fun ew => fst ew <> NextChallenge) es ->
  currentProblem (run generateAlgebraProblem es s) = currentProblem s
  /\ (showFeedback s = true ->
      showFeedback (run generateAlgebraProblem es s) = true).
Proof.
  revert s. induction es as [| [e w] es IH]; intros s Hes; [cbn; auto|].
  inversion Hes as [| ew es' He Hes']; subst. cbn [fst] in He.
  destruct (step_keeps e w s He) as [Hp Hf].
  destruct (IH (fst (step generateAlgebraProblem e w s)) Hes') as [Hp' Hf'].
  cbn [run]. split; [now rewrite Hp', Hp | auto].
Qed.

Lemma reachable_lock_justified (s : State) :
  reachable generateAlgebraProblem s -> lock_justified s.
Proof.
  induction 1 as [w | e w s Hr IH]; unfold lock_justified in *.
  - unfold mount. destruct (generateAlgebraProblem 1 w). cbn. discriminate.
  - destruct e; cbn [step].
    + unfold inputDisabled. destruct (showFeedback s) eqn:Ef, (isCorrect s) eqn:Ec;
        cbn; rewrite ?Ef, ?Ec; auto; discriminate.
    + destruct (checkDisabled s); [cbn; auto|].
      pose proof (checkAnswer_checks s) as C.
      destruct (checkAnswer s) as [s' t]. cbn [fst snd] in *.
      destruct C; cbn; auto. discriminate.
    + cbn. auto.
    + destruct (showFeedback s) eqn:Ef; [| cbn; rewrite Ef; discriminate].
      rewrite nextProblem_fields. cbn. discriminate.
Qed.

(** X11.  In every state that a session reaches from mount, if the
    answer input is rendered disabled, then so is the Check button, and the
    right column is the feedback panel with [isCorrect] true and, as
    [userAnswer], the answer of the current problem. *)
Theorem disabled_input_shows_the_answer (s : State) :
  reachable generateAlgebraProblem s ->
  inputIsDisabled (render s) = true ->
  rightColumn (render s)
  = AlgebraFeedback true (currentProblem s) (Int (answer (currentProblem s)))
  /\ checkIsDisabled (render s) = true.
Proof.
  intros Hr Hd. cbn in Hd. apply andb_prop in Hd. destruct Hd as [Hf Hc].
  pose proof (reachable_lock_justified s Hr Hf Hc) as Hp.
  cbn. now rewrite Hf, Hc, Hp.
Qed.

(** X12.  While the answer input is enabled, typing the rendering of the
    current problem's answer and clicking Check leaves that input in
    [userAnswer], sets [showFeedback] and [isCorrect], and disables the
    input. *)
Theorem the_answer_can_be_entered (s : State) (w1 w2 : World) :
  inputDisabled s = false ->
  run generateAlgebraProblem
    [(Change (str (answer (currentProblem s))), w1); (ClickCheck, w2)] s
  = setShowFeedback true
      (setIsCorrect true (setUserAnswer (str (answer (currentProblem s))) s))
  /\ inputDisabled
       (run generateAlgebraProblem
          [(Change (str (answer (currentProblem s))), w1); (ClickCheck, w2)] s)
     = true.
Proof.
  intros Hd. cbn [run step]. rewrite Hd. cbn [fst].
  assert (Hd' : checkDisabled
                  (handleAnswerChange (str (answer (currentProblem s))) s) = false)
    by exact Hd.
  rewrite Hd'.
  rewrite checkAnswer_correct.
  - cbn. auto.
  - apply str_not_empty.
  - cbn. rewrite parseInt_str. apply toF_is_double, answer_number.
Qed.

(** X13.  While the feedback of an incorrect check is shown, a change of
    the input leaves the feedback panel in place with [isCorrect] false,
    and hands it the parse of the new input as [userAnswer]: NaN for a
    cleared input, the answer itself for a corrected one. *)
Theorem typing_does_not_refresh_the_feedback (s : State) (w : World) (v : jsstring) :
  showFeedback s = true -> isCorrect s = false ->
  rightColumn (render (fst (step generateAlgebraProblem (Change v) w s)))
  = AlgebraFeedback false (currentProblem s) (parseInt v 10).
Proof.
  intros Hf Hc. cbn [step]. unfold inputDisabled. rewrite Hf, Hc. cbn.
  now rewrite Hf, Hc.
Qed.

End SessionRuns.

(** ** Sample runs *)

Lemma only_the_next_challenge_changes_the_problem_seven :
  Forall (fun ew : Event * unit => fst ew <> NextChallenge)
    [(Change (utf16 "7"), tt); (ClickHints, tt); (ClickCheck, tt)]
  /\ currentProblem
       (run Samples.always_seven
          [(Change (utf16 "7"), tt); (ClickHints, tt); (ClickCheck, tt)]
          (missed Samples.seven (utf16 "9")))
     = Samples.seven
  /\ showFeedback
       (run Samples.always_seven
          [(Change (utf16 "7"), tt); (ClickHints, tt); (ClickCheck, tt)]
          (missed Samples.seven (utf16 "9")))
     = true.
Proof.
  assert (Hes : Forall (fun ew : Event * unit => fst ew <> NextChallenge)
                  [(Change (utf16 "7"), tt); (ClickHints, tt); (ClickCheck, tt)])
    by (repeat constructor; discriminate).
  split; [exact Hes|].
  destruct (only_the_next_challenge_changes_the_problem unit Samples.always_seven
              [(Change (utf16 "7"), tt); (ClickHints, tt); (ClickCheck, tt)]
              (missed Samples.seven (utf16 "9")) Hes) as [Hp Hf].
  split; [exact Hp | exact (Hf eq_refl)].
Defined.

Lemma disabled_input_shows_the_answer_seven :
  (reachable Samples.always_seven (Samples.solved Samples.seven (utf16 "7"))
   /\ inputIsDisabled (render (Samples.solved Samples.seven (utf16 "7"))) = true)
  /\ rightColumn (render (Samples.solved Samples.seven (utf16 "7")))
     = AlgebraFeedback true Samples.seven (Int 7).
Proof.
  assert (Hr : reachable Samples.always_seven
                 (Samples.solved Samples.seven (utf16 "7"))).
  { exact (reachable_step unit Samples.always_seven ClickCheck tt _
             (reachable_step unit Samples.always_seven (Change (utf16 "7")) tt _
                (reachable_mount unit Samples.always_seven tt))). }
  split; [split; [exact Hr | reflexivity]|].
  exact (proj1 (disabled_input_shows_the_answer unit Samples.always_seven
                  (Samples.solved Samples.seven (utf16 "7")) Hr eq_refl)).
Defined.

Lemma the_answer_can_be_entered_seven :
  inputDisabled (missed Samples.seven (utf16 "9")) = false
  /\ run Samples.always_seven
       [(Change (str 7), tt); (ClickCheck, tt)] (missed Samples.seven (utf16 "9"))
     = Samples.solved Samples.seven (utf16 "7").
Proof.
  split; [reflexivity|].
  exact (proj1 (the_answer_can_be_entered unit Samples.always_seven
                  (missed Samples.seven (utf16 "9")) tt tt eq_refl)).
Defined.

Lemma typing_does_not_refresh_the_feedback_seven :
  (showFeedback (missed Samples.seven (utf16 "9")) = true
   /\ isCorrect (missed Samples.seven (utf16 "9")) = false)
  /\ rightColumn
       (render (fst (step Samples.always_seven (Change []) tt
                       (missed Samples.seven (utf16 "9")))))
     = AlgebraFeedback false Samples.seven NaN
  /\ rightColumn
       (render (fst (step Samples.always_seven (Change (utf16 "7")) tt
                       (missed Samples.seven (utf16 "9")))))
     = AlgebraFeedback false Samples.seven (Int 7).
Proof.
  split; [split; reflexivity|].
  split.
  - exact (typing_does_not_refresh_the_feedback unit Samples.always_seven
             (missed Samples.seven (utf16 "9")) tt [] eq_refl eq_refl).
  - exact (typing_does_not_refresh_the_feedback unit Samples.always_seven
             (missed Samples.seven (utf16 "9")) tt (utf16 "7") eq_refl eq_refl).
Defined.
